(** * Radiative-forcing dashboard: the dataset, the checklist and the
      filter-and-render callback of [main.py]

    The program loads [rf_data.csv] once into the module global [df],
    builds a page with one checklist and one graph, and registers the
    callback [update_graph], which keeps the rows of [df] whose [Source]
    is ticked and draws them as a waterfall trace.

    The pandas and plotly calls the callback makes are modelled by what
    they do on the values the program hands them: a table is the list of
    its rows in file order, a column is the list of its cells, a boolean
    mask is a list of booleans, a figure is the record of the properties
    the program sets. *)

From Stdlib Require Import QArith.
From stdpp Require Import base option list strings gmap.

Set Default Proof Using "Type".
Open Scope string_scope.

(** ** Python exceptions and results *)

Inductive PyExc : Type :=
  | FileNotFoundError
  | ParserError
  | EmptyDataError
  | UnicodeDecodeError
  | NameError
  | ValueError.

Inductive result (A : Type) : Type :=
  | Ok (a : A)
  | Raise (e : PyExc).
Arguments Ok {A} a.
Arguments Raise {A} e.

Definition result_bind {A B} (r : result A) (k : A → result B) : result B :=
  match r with
  | Ok a => k a
  | Raise e => Raise e
  end.

Section Dashboard.

(** The type of the cells of the [Contribution] column.  The program
    never computes with them: it hands them to the chart unchanged. *)
Context {Num : Type}.

(** ** The table *)

(** One Forcing Record: a line of [rf_data.csv] under its three headers. *)
Record ForcingRecord : Type := mkRecord {
  Source : string;
  Measure : string;
  Contribution : Num
}.

(** A [pd.DataFrame] with the columns [Source], [Measure], [Contribution]:
    its rows, first line of the file first. *)
Definition DataFrame : Type := list ForcingRecord.

(** [t['Source']], [t['Measure']], [t['Contribution']]: one column. *)
Definition col_Source (t : DataFrame) : list string := map Source t.
Definition col_Measure (t : DataFrame) : list string := map Measure t.
Definition col_Contribution (t : DataFrame) : list Num := map Contribution t.

(** [Series.isin(values)]: for each cell, whether it occurs in [values]. *)
Definition isin (column : list string) (values : list string) : list bool :=
  map (λ cell, bool_decide (cell ∈ values)) column.

(** [t[mask]] for a boolean mask: the rows at the positions where the mask
    holds.  A mask of another length than the table raises [ValueError]
    ("Item wrong length"). *)
Fixpoint getitem_mask (t : DataFrame) (mask : list bool) : result DataFrame :=
  match t, mask with
  | [], [] => Ok []
  | r :: t', b :: mask' =>
      result_bind (getitem_mask t' mask')
        (λ kept, Ok (if b then r :: kept else kept))
  | _, _ => Raise ValueError
  end.

(** [Series.unique()]: the distinct cells in order of first appearance,
    found with a hash table of the cells seen so far. *)
Fixpoint unique_from (seen : gset string) (column : list string) : list string :=
  match column with
  | [] => []
  | cell :: rest =>
      if bool_decide (cell ∈ seen) then unique_from seen rest
      else cell :: unique_from ({[cell]} ∪ seen) rest
  end.

Definition unique (column : list string) : list string :=
  unique_from ∅ column.

(** The filtering step of [update_graph] (line 62):
    [filtered_df = df[df['Source'].isin(selected_sources)]]. *)
Definition filter_step (t : DataFrame) (selected_sources : list string)
  : result DataFrame :=
  getitem_mask t (isin (col_Source t) selected_sources).

(** ** The chart specification *)

(** The properties of a plotly figure that [update_graph] sets. *)
Record Line : Type := mkLine {
  line_color : string;
  line_width : option Z
}.

Record Marker : Type := mkMarker {
  marker_color : string;
  marker_line : option Line
}.

(** A [go.Waterfall] trace.  [measure], [x], [text] and [y] are parallel
    arrays: position [i] of each describes bar [i]. *)
Record Waterfall : Type := mkWaterfall {
  name : string;
  orientation : string;
  measure : list string;
  x : list string;
  textposition : string;
  text : list Num;
  y : list Num;
  increasing : Marker;
  decreasing : Marker;
  totals : Marker;
  connector : Line
}.

Record YAxis : Type := mkYAxis {
  visible : option bool;
  title_text : option string
}.

Record Figure : Type := mkFigure {
  data : list Waterfall;
  yaxis : YAxis
}.

(** [go.Figure(trace)]: one trace, an untouched layout. *)
Definition go_Figure (trace : Waterfall) : Figure :=
  {| data := [trace];
     yaxis := {| visible := None; title_text := None |} |}.

(** [fig.update_yaxes(visible=v, title_text=s)]. *)
Definition update_yaxes (v : bool) (s : string) (fig : Figure) : Figure :=
  {| data := data fig;
     yaxis := {| visible := Some v; title_text := Some s |} |}.

(** One drawn bar of a waterfall trace: the entries of the four parallel
    arrays at one position. *)
Record Bar : Type := mkBar {
  bar_kind : string;
  bar_position : string;
  bar_label : Num;
  bar_height : Num
}.

Definition bars (trace : Waterfall) : list Bar :=
  zip_with (λ mp th, mkBar mp.1 mp.2 th.1 th.2)
    (zip (measure trace) (x trace)) (zip (text trace) (y trace)).

Definition figure_bars (fig : Figure) : list Bar :=
  concat (map bars (data fig)).

(** Bar [b] draws row [r]: its kind is the row's [Measure], it stands at
    the row's [Source], its height is the row's [Contribution] and its
    label is that [Contribution] again. *)
Definition draws (b : Bar) (r : ForcingRecord) : Prop :=
  bar_kind b = Measure r ∧ bar_position b = Source r
  ∧ bar_height b = Contribution r ∧ bar_label b = Contribution r.

(** The bar that the four arrays of [go.Waterfall] hold for row [r]:
    [measure], [x], [text], [y] at the row's position. *)
Definition bar_of_row (r : ForcingRecord) : Bar :=
  {| bar_kind := Measure r; bar_position := Source r;
     bar_label := Contribution r; bar_height := Contribution r |}.

(** ** The page *)

(** The two components the callback is wired to; the headings and the
    paragraphs of the page are static text. *)
Record ChecklistOption : Type := mkOption {
  opt_label : string;
  opt_value : string;
  opt_disabled : bool
}.

Record Checklist : Type := mkChecklist {
  checklist_id : string;
  options : list ChecklistOption;
  value : list string
}.

Record Layout : Type := mkLayout {
  checklist : Checklist;
  graph_id : string
}.

(** [dcc.Checklist(id='my_checklist', options=[... for x in
    df['Source'].unique()], value=[...])] (lines 41-50). *)
Definition my_checklist (t : DataFrame) : Checklist :=
  {| checklist_id := "my_checklist";
     options := map (λ x, {| opt_label := x; opt_value := x; opt_disabled := false |})
                    (unique (col_Source t));
     value := ["Carbon Dioxide"; "Methane"; "Albedo (Land use)";
               "Solar irradiance"; "Net total"] |}.

Definition page (t : DataFrame) : Layout :=
  {| checklist := my_checklist t; graph_id := "the_graph" |}.

(** ** The process *)

(** What [pd.read_csv] makes of a file that is there: it raises while it
    reads it ([ParserError] on a line with too many fields,
    [EmptyDataError] on an empty file, [UnicodeDecodeError] on bytes that
    are not text), or it returns a table.  The tables are those with the
    columns [Source], [Measure] and [Contribution]. *)
Inductive Reading : Type :=
  | Unreadable (e : PyExc)
  | Table (t : DataFrame).

(** What the program reads and writes: the files it can open, each as
    [pd.read_csv] reads it, the log of the files it opened, the module
    globals [df] and [app.layout] (unbound until assigned) and the port
    the embedded server listens on. *)
Record Process : Type := mkProcess {
  files : gmap string Reading;
  opened : list string;
  df : option DataFrame;
  layout : option Layout;
  serving : option Z
}.

(** The process before the module body runs. *)
Definition boot (fs : gmap string Reading) : Process :=
  {| files := fs; opened := []; df := None; layout := None; serving := None |}.

(** A statement: it runs in a process and returns a value or raises,
    leaving the process as it was when it stopped. *)
Definition M (A : Type) : Type := Process → result A * Process.

Definition ret {A} (a : A) : M A := λ w, (Ok a, w).

Definition bind {A B} (m : M A) (k : A → M B) : M B :=
  λ w, match m w with
       | (Ok a, w') => k a w'
       | (Raise e, w') => (Raise e, w')
       end.

Definition lift {A} (r : result A) : M A := λ w, (r, w).

Notation "'do' v <- m ; k" := (bind m (λ v, k))
  (at level 10, v name, m at level 100, k at level 200,
   format "'[v' 'do'  v  <-  m ; '/' k ']'").

(** Reading the global [df]; an unbound name raises [NameError]. *)
Definition global_df : M DataFrame :=
  λ w, match df w with
       | Some t => (Ok t, w)
       | None => (Raise NameError, w)
       end.

Definition assign_df (t : DataFrame) : M unit :=
  λ w, (Ok (), {| files := files w; opened := opened w; df := Some t;
                  layout := layout w; serving := serving w |}).

Definition assign_layout (l : Layout) : M unit :=
  λ w, (Ok (), {| files := files w; opened := opened w; df := df w;
                  layout := Some l; serving := serving w |}).

Definition run_server (port : Z) : M unit :=
  λ w, (Ok (), {| files := files w; opened := opened w; df := df w;
                  layout := layout w; serving := Some port |}).

(** ** The callback *)

(** The trace of lines 64-75: [go.Waterfall(name="20", ...)] over the
    columns of the filtered table. *)
Definition go_Waterfall (filtered_df : DataFrame) : Waterfall :=
  {| name := "20"; orientation := "v";
     measure := col_Measure filtered_df;
     x := col_Source filtered_df;
     textposition := "inside";
     text := col_Contribution filtered_df;
     y := col_Contribution filtered_df;
     increasing := {| marker_color := "#8F2738"; marker_line := None |};
     decreasing := {| marker_color := "#5E8DB0"; marker_line := None |};
     totals := {| marker_color := "#ffb01f";
                  marker_line := Some {| line_color := "gold";
                                         line_width := Some 3%Z |} |};
     connector := {| line_color := "#C0C0C0"; line_width := None |} |}.

(** [update_graph(selected_sources)] (lines 61-77). *)
Definition update_graph (selected_sources : list string) : M Figure :=
  do t <- global_df;
  do filtered_df <- lift (filter_step t selected_sources);
  let fig := go_Figure (go_Waterfall filtered_df) in
  let fig := update_yaxes true "W/m<sup>2</sup>" fig in
  ret fig.

(** The framework calls the callback once for each change of the
    checklist, one call after the other; a call that raises is answered
    with an error page and the next change is served. *)
Fixpoint dispatch (changes : list (list string)) (w : Process)
  : list (result Figure) * Process :=
  match changes with
  | [] => ([], w)
  | selected_sources :: later =>
      let '(answer, w') := update_graph selected_sources w in
      let '(answers, w'') := dispatch later w' in
      (answer :: answers, w'')
  end.

(** ** Startup *)

(** [pd.read_csv(path)]: one attempt to open and read the file.  A file
    that is not there raises [FileNotFoundError]; the error pandas raises
    while reading is raised as it is. *)
Definition read_csv (path : string) : M DataFrame :=
  λ w, let w' := {| files := files w; opened := opened w ++ [path];
                    df := df w; layout := layout w; serving := serving w |} in
       match files w !! path with
       | None => (Raise FileNotFoundError, w')
       | Some (Unreadable e) => (Raise e, w')
       | Some (Table t) => (Ok t, w')
       end.

(** The module body from line 13 on: load the table, build the page and,
    when the file is run as a script, start the server on port 8124.
    [app.run_server] is the last statement and does not return while the
    server runs: [serving] records that the process is inside it.  No
    statement is wrapped in a [try]. *)
Definition main (as_script : bool) : M unit :=
  do t <- read_csv "rf_data.csv";
  do _ <- assign_df t;
  do _ <- assign_layout (page t);
  if as_script then run_server 8124 else ret ().

End Dashboard.

Arguments ForcingRecord : clear implicits.
Arguments DataFrame : clear implicits.
Arguments Waterfall : clear implicits.
Arguments Figure : clear implicits.
Arguments Bar : clear implicits.
Arguments Process : clear implicits.
Arguments Reading : clear implicits.
Arguments M : clear implicits.

(** ** An example table

    A table of the shape of [rf_data.csv], with rational contributions,
    used to run the definitions on concrete input. *)

Definition sample_df : DataFrame Q :=
  [ mkRecord "Carbon Dioxide" "relative" 1.68%Q;
    mkRecord "Methane" "relative" 0.97%Q;
    mkRecord "Halocarbons" "relative" 0.18%Q;
    mkRecord "Aerosols" "relative" (-0.27)%Q;
    mkRecord "Albedo (Land use)" "relative" (-0.15)%Q;
    mkRecord "Solar irradiance" "relative" 0.05%Q;
    mkRecord "Net total" "total" 2.29%Q ].

(** The process while the page is served: the table loaded, the page
    built, the server listening. *)
Definition sample_process : Process Q :=
  {| files := ∅; opened := ["rf_data.csv"]; df := Some sample_df;
     layout := Some (page sample_df); serving := Some 8124%Z |}.

(** The axis label as the specification spells it, with the character
    SUPERSCRIPT TWO (bytes C2 B2 in UTF-8). *)
Definition label_superscript_two : string := "W/m²".

(** ** The filtering step *)

Section Filtering.

Context {Num : Type}.
Implicit Types (t : list (ForcingRecord Num)) (r : ForcingRecord Num).
Implicit Types (S : list string).

(** Indexing with a mask computed row by row keeps the rows the test
    accepts. *)
Lemma getitem_mask_map t (p : ForcingRecord Num → bool) :
  getitem_mask t (map p t) = Ok (filter (λ r, p r) t).
Proof.
  induction t as [|r t IH]; [done|].
  cbn [map getitem_mask]. rewrite IH. cbn [result_bind].
  rewrite filter_cons. by destruct (p r).
Qed.

(** The mask length is the only thing [getitem_mask] checks. *)
Lemma getitem_mask_length t (mask : list bool) :
  length t = length mask ↔ ∃ kept, getitem_mask t mask = Ok kept.
Proof.
  revert mask. induction t as [|r t IH]; intros [|b mask]; cbn.
  - naive_solver.
  - split; [done|]. by intros [? ?].
  - split; [done|]. by intros [? ?].
  - rewrite Nat.succ_inj_wd, IH. split.
    + intros [kept ->]. cbn. eauto.
    + destruct (getitem_mask t mask); cbn; [eauto|]. by intros [? ?].
Qed.

Lemma isin_col_Source t S :
  isin (col_Source t) S = map (λ r, bool_decide (Source r ∈ S)) t.
Proof. unfold isin, col_Source. by rewrite map_map. Qed.

Lemma filter_step_filter t S :
  filter_step t S = Ok (filter (λ r, Source r ∈ S) t).
Proof.
  unfold filter_step. rewrite isin_col_Source, getitem_mask_map.
  f_equal. apply list_filter_iff. intros r. apply bool_decide_spec.
Qed.

(** C1: for every selection [S], the filtering step of [update_graph]
    returns exactly the rows of the dataset whose [Source] is in [S]: a row
    is kept if and only if it is a dataset row with its [Source] in [S],
    and the kept rows are a subsequence of the dataset, so no row is
    repeated and the dataset's order is kept. *)
Theorem filter_step_exact t S :
  ∃ filtered_df,
    filter_step t S = Ok filtered_df
    ∧ filtered_df = filter (λ r, Source r ∈ S) t
    ∧ (∀ r, r ∈ filtered_df ↔ r ∈ t ∧ Source r ∈ S)
    ∧ sublist filtered_df t.
Proof.
  exists (filter (λ r, Source r ∈ S) t). split; [apply filter_step_filter|].
  split; [done|]. split.
  - intros r. rewrite list_elem_of_filter. tauto.
  - apply sublist_filter.
Qed.

End Filtering.

(** ** The callback *)

Section Callback.

Context {Num : Type}.
Implicit Types (t : list (ForcingRecord Num)) (r : ForcingRecord Num).
Implicit Types (S : list string) (w : Process Num).

Lemma update_graph_loaded w t S :
  df w = Some t →
  update_graph S w =
    (Ok (update_yaxes true "W/m<sup>2</sup>"
           (go_Figure (go_Waterfall (filter (λ r, Source r ∈ S) t)))), w).
Proof.
  intros Hdf. unfold update_graph, bind, global_df, lift, ret.
  by rewrite Hdf, filter_step_filter.
Qed.

Lemma update_graph_unbound w S :
  df w = None → update_graph S w = (Raise NameError, w).
Proof.
  intros Hdf. unfold update_graph, bind, global_df. by rewrite Hdf.
Qed.

(** The callback only reads the process. *)
Lemma update_graph_reads_only w S : (update_graph S w).2 = w.
Proof.
  destruct (df w) as [t|] eqn:Hdf.
  - by rewrite (update_graph_loaded w t S Hdf).
  - by rewrite (update_graph_unbound w S Hdf).
Qed.

Lemma dispatch_reads_only (changes : list (list string)) w :
  (dispatch changes w).2 = w.
Proof.
  revert w. induction changes as [|S changes IH]; intros w; [done|].
  cbn [dispatch]. pose proof (update_graph_reads_only w S) as Hw.
  destruct (update_graph S w) as [answer w']. cbn in Hw. subst w'.
  specialize (IH w). by destruct (dispatch changes w) as [answers w''].
Qed.

(** The answer of the callback is read off the dataset and the selection. *)
Lemma update_graph_answer w w' S :
  df w = df w' → (update_graph S w).1 = (update_graph S w').1.
Proof.
  intros Heq. destruct (df w) as [t|] eqn:Hdf.
  - by rewrite (update_graph_loaded w t S Hdf),
      (update_graph_loaded w' t S (eq_sym Heq)).
  - by rewrite (update_graph_unbound w S Hdf),
      (update_graph_unbound w' S (eq_sym Heq)).
Qed.

(** The bars of the trace are the rows it was built from, one for one. *)
Lemma bars_go_Waterfall t : Forall2 draws (bars (go_Waterfall t)) t.
Proof.
  unfold bars, go_Waterfall; cbn.
  induction t as [|r t IH]; cbn; constructor; [by repeat split | done].
Qed.

Lemma figure_bars_update_yaxes v s (fig : Figure Num) :
  figure_bars (update_yaxes v s fig) = figure_bars fig.
Proof. done. Qed.

Lemma figure_bars_go_Figure (trace : Waterfall Num) :
  figure_bars (go_Figure trace) = bars trace.
Proof. unfold figure_bars, go_Figure; cbn. apply app_nil_r. Qed.

(** Two selections that tick the same labels of the [Source] column give
    the same mask. *)
Lemma isin_agree (column : list string) S1 S2 :
  (∀ cell, cell ∈ column → (cell ∈ S1 ↔ cell ∈ S2)) →
  isin column S1 = isin column S2.
Proof.
  intros Hagree. unfold isin. apply map_ext_in. intros cell Hin.
  apply bool_decide_ext, Hagree. by apply list_elem_of_In.
Qed.

Lemma update_graph_agree w t S1 S2 :
  df w = Some t →
  (∀ cell, cell ∈ col_Source t → (cell ∈ S1 ↔ cell ∈ S2)) →
  update_graph S1 w = update_graph S2 w.
Proof.
  intros Hdf Hagree.
  unfold update_graph, bind, global_df, lift, filter_step. rewrite Hdf.
  by rewrite (isin_agree _ S1 S2 Hagree).
Qed.

(** [unique] keeps every cell of the column, each once. *)
Lemma elem_of_unique_from (seen : gset string) (column : list string) x :
  x ∈ unique_from seen column ↔ x ∈ column ∧ x ∉ seen.
Proof.
  revert seen. induction column as [|cell rest IH]; intros seen; cbn.
  - rewrite !elem_of_nil. tauto.
  - case_bool_decide as Hseen.
    + rewrite IH, elem_of_cons. split; [tauto|].
      intros [[->|?] ?]; [done | tauto].
    + rewrite !elem_of_cons, IH, elem_of_union, elem_of_singleton.
      destruct (decide (x = cell)) as [->|Hne]; tauto.
Qed.

Lemma elem_of_unique (column : list string) x :
  x ∈ unique column ↔ x ∈ column.
Proof.
  unfold unique. rewrite elem_of_unique_from.
  split; [tauto|]. intros ?. split; [done|]. apply not_elem_of_empty.
Qed.

Lemma NoDup_unique_from (seen : gset string) (column : list string) :
  NoDup (unique_from seen column).
Proof.
  revert seen. induction column as [|cell rest IH]; intros seen; cbn.
  - constructor.
  - case_bool_decide; [done|]. constructor; [|done].
    rewrite elem_of_unique_from. intros [_ Hfresh]. apply Hfresh.
    by apply elem_of_union_l, elem_of_singleton.
Qed.

Lemma filter_Forall {A} (P : A → Prop) `{!∀ a, Decision (P a)} (l : list A) :
  Forall P l → filter P l = l.
Proof.
  induction 1 as [|a l Ha _ IH]; [done|].
  by rewrite filter_cons_True, IH.
Qed.

Lemma filter_step_all t : filter_step t (unique (col_Source t)) = Ok t.
Proof.
  rewrite filter_step_filter. f_equal. apply filter_Forall.
  apply Forall_forall. intros r Hr. rewrite elem_of_unique.
  unfold col_Source. apply list_elem_of_In, in_map. by apply list_elem_of_In.
Qed.

(** C2: for every selection, the figure returned by [update_graph] holds
    one waterfall trace with exactly one bar per filtered row, in row
    order; each bar's kind is the row's [Measure], its height the row's
    [Contribution], and its text label the same [Contribution]; the
    increasing, decreasing and total bars have the three fixed, pairwise
    different colors #8F2738, #5E8DB0 and #ffb01f, and the connector lines
    have the one fixed color #C0C0C0. *)
Theorem update_graph_bars w t S :
  df w = Some t →
  ∃ filtered_df fig trace,
    filter_step t S = Ok filtered_df
    ∧ update_graph S w = (Ok fig, w)
    ∧ data fig = [trace]
    ∧ Forall2 draws (bars trace) filtered_df
    ∧ length (bars trace) = length filtered_df
    ∧ marker_color (increasing trace) = "#8F2738"
    ∧ marker_color (decreasing trace) = "#5E8DB0"
    ∧ marker_color (totals trace) = "#ffb01f"
    ∧ NoDup [marker_color (increasing trace); marker_color (decreasing trace);
             marker_color (totals trace)]
    ∧ line_color (connector trace) = "#C0C0C0".
Proof.
  intros Hdf.
  exists (filter (λ r, Source r ∈ S) t). eexists. eexists.
  split; [apply filter_step_filter|].
  split; [by apply update_graph_loaded|].
  split; [done|].
  split; [apply bars_go_Waterfall|].
  split; [apply (Forall2_length _ _ _ (bars_go_Waterfall _))|].
  do 3 (split; [done|]).
  split; [|done]. cbn. by apply (bool_decide_unpack _).
Qed.

(** C3: the chart returned by [update_graph] is determined by the dataset
    and the selection: two processes holding the same dataset answer the
    same selection with the same chart, and invoking the callback a second
    time with the same selection, in the process the first invocation
    left, returns the same chart as the first time. *)
Theorem update_graph_deterministic w w' S :
  df w = df w' →
  (update_graph S w).1 = (update_graph S w').1
  ∧ (update_graph S (update_graph S w).2).1 = (update_graph S w).1.
Proof.
  intros Heq. split; [by apply update_graph_answer|].
  by rewrite update_graph_reads_only.
Qed.

(** C4: with the dataset loaded, invoking [update_graph] with the empty
    selection, or with any selection that matches no row, returns a figure
    (it does not raise) and that figure has no bar. *)
Theorem update_graph_no_match w t S :
  df w = Some t →
  S = [] ∨ (∀ r, r ∈ t → Source r ∉ S) →
  ∃ fig, update_graph S w = (Ok fig, w) ∧ figure_bars fig = [].
Proof.
  intros Hdf Hnone. eexists. split; [by apply update_graph_loaded|].
  rewrite figure_bars_update_yaxes, figure_bars_go_Figure.
  assert (filter (λ r, Source r ∈ S) t = []) as ->; [|done].
  induction t as [|r t' IH] in Hnone |- *; [done|].
  rewrite filter_cons_False.
  - apply IH. destruct Hnone as [->|Hnone]; [by left|].
    right. intros r' Hr'. apply Hnone. by right.
  - destruct Hnone as [->|Hnone]; [apply not_elem_of_nil|].
    apply Hnone. by left.
Qed.

(** C6, as the code has it: for every selection, the figure returned by
    [update_graph] has its vertical axis visible, and the axis title is
    the markup string [W/m<sup>2</sup>], in which the superscript is
    written with a [<sup>] tag. *)
Theorem update_graph_yaxis w t S :
  df w = Some t →
  ∃ fig, update_graph S w = (Ok fig, w)
    ∧ visible (yaxis fig) = Some true
    ∧ title_text (yaxis fig) = Some "W/m<sup>2</sup>".
Proof.
  intros Hdf. eexists. split; [by apply update_graph_loaded|]. done.
Qed.

(** C7: the checklist's default selection is the list Carbon Dioxide,
    Methane, Albedo (Land use), Solar irradiance, Net total, that is the
    set of these five labels, and [update_graph] applied to it returns a
    chart with exactly one bar per dataset row whose [Source] is in that
    set. *)
Theorem default_selection_bars w t :
  df w = Some t →
  value (my_checklist t) =
    ["Carbon Dioxide"; "Methane"; "Albedo (Land use)"; "Solar irradiance";
     "Net total"]
  ∧ (∀ label, label ∈ value (my_checklist t) ↔
       label ∈ ({[ "Carbon Dioxide"; "Methane"; "Albedo (Land use)";
                   "Solar irradiance"; "Net total" ]} : gset string))
  ∧ ∃ fig trace,
      update_graph (value (my_checklist t)) w = (Ok fig, w)
      ∧ data fig = [trace]
      ∧ figure_bars fig = bars trace
      ∧ Forall2 draws (bars trace)
          (filter (λ r, Source r ∈
                     ({[ "Carbon Dioxide"; "Methane"; "Albedo (Land use)";
                         "Solar irradiance"; "Net total" ]} : gset string)) t).
Proof.
  intros Hdf.
  assert (∀ label, label ∈ value (my_checklist t) ↔
       label ∈ ({[ "Carbon Dioxide"; "Methane"; "Albedo (Land use)";
                   "Solar irradiance"; "Net total" ]} : gset string)) as Hset.
  { intros label. cbn. rewrite !elem_of_cons, elem_of_nil.
    rewrite !elem_of_union, !elem_of_singleton. tauto. }
  split; [done|]. split; [done|].
  eexists. eexists. split; [by apply update_graph_loaded|].
  split; [done|]. split; [apply figure_bars_go_Figure|].
  erewrite list_filter_iff; [apply bars_go_Waterfall|].
  intros r. cbn beta. by rewrite <- Hset.
Qed.

(** C8: invoking [update_graph] with all the unique [Source] values of the
    dataset, which are the values the checklist offers, filters nothing
    out: the filtered table is the dataset itself and the chart has
    exactly one bar per dataset row, in the dataset's row order. *)
Theorem select_all_identity w t :
  df w = Some t →
  opt_value <$> options (my_checklist t) = unique (col_Source t)
  ∧ filter_step t (unique (col_Source t)) = Ok t
  ∧ ∃ fig trace,
      update_graph (unique (col_Source t)) w = (Ok fig, w)
      ∧ data fig = [trace]
      ∧ figure_bars fig = bars trace
      ∧ Forall2 draws (bars trace) t
      ∧ length (bars trace) = length t.
Proof.
  intros Hdf. split.
  { cbn. rewrite <- list_fmap_compose. apply list_fmap_id. }
  split; [apply filter_step_all|].
  pose proof (filter_step_all t) as Hall.
  rewrite filter_step_filter in Hall. injection Hall as Hall.
  eexists. eexists. split; [by apply update_graph_loaded|].
  rewrite Hall. split; [done|]. split; [apply figure_bars_go_Figure|].
  split; [apply bars_go_Waterfall|].
  apply (Forall2_length _ _ _ (bars_go_Waterfall _)).
Qed.

(** C9: invoking [update_graph] leaves the process as it found it, the
    loaded dataset in particular, for every selection and whether it
    returns or raises; so after any sequence of invocations the dataset is
    the one that was there before the first. *)
Theorem update_graph_dataset_unchanged w S (changes : list (list string)) :
  (update_graph S w).2 = w
  ∧ df (update_graph S w).2 = df w
  ∧ (dispatch changes w).2 = w
  ∧ df (dispatch changes w).2 = df w.
Proof.
  rewrite update_graph_reads_only, dispatch_reads_only. done.
Qed.

(** C10: the chart depends only on which labels are selected.  Two
    selections with the same labels, in any order and with any repetition,
    give the same result, and labels that occur in no row of the [Source]
    column can be added to a selection without changing the result. *)
Theorem update_graph_selection_set w t S1 S2 (U : list string) :
  df w = Some t →
  (∀ label, label ∈ S1 ↔ label ∈ S2) →
  (∀ label, label ∈ U → label ∉ col_Source t) →
  update_graph S2 w = update_graph S1 w
  ∧ update_graph (S2 ++ U) w = update_graph S1 w.
Proof.
  intros Hdf Hsame Hunknown. split.
  - apply (update_graph_agree w t); [done|]. intros cell _. symmetry. apply Hsame.
  - apply (update_graph_agree w t); [done|]. intros cell Hcell.
    rewrite elem_of_app, <- Hsame. split; [|tauto].
    intros [?|HU]; [done|]. by destruct (Hunknown cell HU).
Qed.

End Callback.

(** ** Startup *)

Section StartupFacts.

Context {Num : Type}.
Implicit Types (fs : gmap string (Reading Num)).

(** When the file is there and is read as a table, the module body goes
    on after line 13: the table is bound to [df], the page is built from
    it and, run as a script, the server is started on port 8124. *)
Lemma startup_loaded fs (t : DataFrame Num) as_script :
  fs !! "rf_data.csv" = Some (Table t) →
  main as_script (boot fs) =
    (Ok (), {| files := fs; opened := ["rf_data.csv"]; df := Some t;
               layout := Some (page t);
               serving := if as_script then Some 8124%Z else None |}).
Proof.
  intros Hfile.
  unfold main, bind, read_csv, boot; cbn [files opened df layout serving].
  rewrite Hfile. by destruct as_script.
Qed.


End StartupFacts.

(** ** The statements on the example table *)

Example filter_step_sample :
  filter_step sample_df ["Net total"; "Methane"; "Volcanic"; "Methane"] =
    Ok [mkRecord "Methane" "relative" 0.97%Q; mkRecord "Net total" "total" 2.29%Q].
Proof. reflexivity. Qed.

Lemma update_graph_bars_witness :
  df sample_process = Some sample_df
  ∧ ∃ filtered_df fig trace,
      filter_step sample_df ["Methane"; "Net total"] = Ok filtered_df
      ∧ update_graph ["Methane"; "Net total"] sample_process
        = (Ok fig, sample_process)
      ∧ data fig = [trace]
      ∧ Forall2 draws (bars trace) filtered_df
      ∧ length (bars trace) = length filtered_df
      ∧ marker_color (increasing trace) = "#8F2738"
      ∧ marker_color (decreasing trace) = "#5E8DB0"
      ∧ marker_color (totals trace) = "#ffb01f"
      ∧ NoDup [marker_color (increasing trace);
               marker_color (decreasing trace);
               marker_color (totals trace)]
      ∧ line_color (connector trace) = "#C0C0C0".
Proof.
  split; [reflexivity|].
  apply (update_graph_bars sample_process sample_df). reflexivity.
Defined.

Lemma update_graph_deterministic_witness :
  df sample_process = df (assign_df sample_df (boot ∅)).2
  ∧ (update_graph ["Methane"] sample_process).1
    = (update_graph ["Methane"] (assign_df sample_df (boot ∅)).2).1
  ∧ (update_graph ["Methane"]
       (update_graph ["Methane"] sample_process).2).1
    = (update_graph ["Methane"] sample_process).1.
Proof.
  split; [reflexivity|].
  apply (update_graph_deterministic sample_process). reflexivity.
Defined.

Lemma update_graph_no_match_witness :
  df sample_process = Some sample_df
  ∧ (([] : list string) = [] ∨ (∀ r, r ∈ sample_df → Source r ∉ []))
  ∧ ∃ fig, update_graph [] sample_process = (Ok fig, sample_process)
           ∧ figure_bars fig = [].
Proof.
  split; [reflexivity|]. split; [left; reflexivity|].
  apply (update_graph_no_match sample_process sample_df []);
    [reflexivity | left; reflexivity].
Defined.

Example update_graph_unknown_label :
  ∃ fig, update_graph ["Volcanic"] sample_process = (Ok fig, sample_process)
         ∧ figure_bars fig = [].
Proof. eexists. split; reflexivity. Qed.

(** C6, as the specification words it, fails: on the example table the
    title of the vertical axis is not the five-byte string that ends in
    the character SUPERSCRIPT TWO. *)
Lemma yaxis_title_not_superscript_two :
  ¬ ∃ fig,
      update_graph ["Carbon Dioxide"; "Net total"] sample_process
        = (Ok fig, sample_process)
      ∧ visible (yaxis fig) = Some true
      ∧ title_text (yaxis fig) = Some label_superscript_two.
Proof.
  intros (fig & Hrun & _ & Htitle).
  rewrite (update_graph_loaded sample_process sample_df) in Hrun by reflexivity.
  injection Hrun as <-. discriminate Htitle.
Qed.

Lemma update_graph_yaxis_witness :
  df sample_process = Some sample_df
  ∧ ∃ fig,
      update_graph ["Carbon Dioxide"; "Net total"] sample_process
        = (Ok fig, sample_process)
      ∧ visible (yaxis fig) = Some true
      ∧ title_text (yaxis fig) = Some "W/m<sup>2</sup>".
Proof.
  split; [reflexivity|].
  apply (update_graph_yaxis sample_process sample_df). reflexivity.
Defined.

Lemma default_selection_bars_witness :
  df sample_process = Some sample_df
  ∧ value (my_checklist sample_df) =
      ["Carbon Dioxide"; "Methane"; "Albedo (Land use)"; "Solar irradiance";
       "Net total"]
  ∧ (∀ label, label ∈ value (my_checklist sample_df) ↔
       label ∈ ({[ "Carbon Dioxide"; "Methane"; "Albedo (Land use)";
                   "Solar irradiance"; "Net total" ]} : gset string))
  ∧ ∃ fig trace,
      update_graph (value (my_checklist sample_df)) sample_process
        = (Ok fig, sample_process)
      ∧ data fig = [trace]
      ∧ figure_bars fig = bars trace
      ∧ Forall2 draws (bars trace)
          (filter (λ r, Source r ∈
                     ({[ "Carbon Dioxide"; "Methane"; "Albedo (Land use)";
                         "Solar irradiance"; "Net total" ]} : gset string))
                  sample_df).
Proof.
  split; [reflexivity|].
  apply (default_selection_bars sample_process sample_df). reflexivity.
Defined.

Example default_selection_sample :
  ∃ fig,
    (update_graph (value (my_checklist sample_df)) sample_process).1 = Ok fig
    ∧ figure_bars fig =
        [mkBar "relative" "Carbon Dioxide" 1.68%Q 1.68%Q;
         mkBar "relative" "Methane" 0.97%Q 0.97%Q;
         mkBar "relative" "Albedo (Land use)" (-0.15)%Q (-0.15)%Q;
         mkBar "relative" "Solar irradiance" 0.05%Q 0.05%Q;
         mkBar "total" "Net total" 2.29%Q 2.29%Q].
Proof. eexists. split; reflexivity. Qed.

Lemma select_all_identity_witness :
  df sample_process = Some sample_df
  ∧ opt_value <$> options (my_checklist sample_df)
    = unique (col_Source sample_df)
  ∧ filter_step sample_df (unique (col_Source sample_df)) = Ok sample_df
  ∧ ∃ fig trace,
      update_graph (unique (col_Source sample_df)) sample_process
        = (Ok fig, sample_process)
      ∧ data fig = [trace]
      ∧ figure_bars fig = bars trace
      ∧ Forall2 draws (bars trace) sample_df
      ∧ length (bars trace) = length sample_df.
Proof.
  split; [reflexivity|].
  apply (select_all_identity sample_process sample_df). reflexivity.
Defined.

Lemma update_graph_selection_set_witness :
  df sample_process = Some sample_df
  ∧ (∀ label, label ∈ ["Methane"; "Net total"] ↔
              label ∈ ["Net total"; "Methane"; "Methane"])
  ∧ (∀ label, label ∈ ["Volcanic"] → label ∉ col_Source sample_df)
  ∧ update_graph ["Net total"; "Methane"; "Methane"] sample_process
    = update_graph ["Methane"; "Net total"] sample_process
  ∧ update_graph (["Net total"; "Methane"; "Methane"] ++ ["Volcanic"])
      sample_process
    = update_graph ["Methane"; "Net total"] sample_process.
Proof.
  assert (∀ label, label ∈ ["Methane"; "Net total"] ↔
                   label ∈ ["Net total"; "Methane"; "Methane"]) as Hsame.
  { intros label. rewrite !elem_of_cons, elem_of_nil. tauto. }
  assert (∀ label, label ∈ ["Volcanic"] → label ∉ col_Source sample_df)
    as Hunknown.
  { intros label ->%list_elem_of_singleton.
    apply (bool_decide_unpack _). vm_compute. exact I. }
  split; [reflexivity|]. split; [exact Hsame|]. split; [exact Hunknown|].
  apply (update_graph_selection_set sample_process sample_df);
    [reflexivity | exact Hsame | exact Hunknown].
Defined.


Example startup_missing_file :
  main true (boot (∅ : gmap string (Reading Q))) =
    (Raise FileNotFoundError,
     {| files := ∅; opened := ["rf_data.csv"]; df := None; layout := None;
        serving := None |}).
Proof. reflexivity. Qed.

Example startup_empty_file :
  main true (boot ({[ "rf_data.csv" := Unreadable EmptyDataError ]}
                     : gmap string (Reading Q))) =
    (Raise EmptyDataError,
     {| files := {[ "rf_data.csv" := Unreadable EmptyDataError ]};
        opened := ["rf_data.csv"]; df := None; layout := None;
        serving := None |}).
Proof. reflexivity. Qed.

Example startup_ragged_file :
  (main false (boot ({[ "rf_data.csv" := Unreadable ParserError ]}
                       : gmap string (Reading Q)))).1
  = Raise ParserError.
Proof. reflexivity. Qed.

Example startup_sample :
  main true (boot {[ "rf_data.csv" := Table sample_df ]}) =
    (Ok (), {| files := {[ "rf_data.csv" := Table sample_df ]};
               opened := ["rf_data.csv"]; df := Some sample_df;
               layout := Some (page sample_df); serving := Some 8124%Z |}).
Proof. by apply startup_loaded. Qed.

(** ** The checklist built from the dataset *)

Section ChecklistFacts.

Context {Num : Type}.
Implicit Types (t : list (ForcingRecord Num)) (r : ForcingRecord Num).
Implicit Types (S : list string) (w : Process Num).

Lemma sublist_unique_from (seen : gset string) (column : list string) :
  unique_from seen column `sublist_of` column.
Proof.
  revert seen. induction column as [|cell rest IH]; intros seen; cbn.
  - constructor.
  - case_bool_decide; [by apply sublist_cons | by apply sublist_skip].
Qed.

Lemma sublist_same_length {A} (l k : list A) :
  l `sublist_of` k → length l = length k → l = k.
Proof.
  induction 1 as [|a l k _ IH|a l k Hsub _]; cbn; intros Hlen.
  - done.
  - f_equal. apply IH. lia.
  - apply sublist_length in Hsub. lia.
Qed.

Lemma unique_from_NoDup (seen : gset string) (column : list string) :
  NoDup column → (∀ cell, cell ∈ column → cell ∉ seen) →
  unique_from seen column = column.
Proof.
  intros Hnd. revert seen.
  induction Hnd as [|cell rest Hfresh _ IH]; intros seen Hseen; [done|].
  cbn. rewrite bool_decide_eq_false_2 by (apply Hseen; by left).
  f_equal. apply IH. intros c Hc.
  rewrite elem_of_union, elem_of_singleton. intros [->|Hin]; [done|].
  apply (Hseen c); [by right | done].
Qed.

Lemma unique_from_app (seen : gset string) (l1 l2 : list string) :
  unique_from seen l1 `prefix_of` unique_from seen (l1 ++ l2).
Proof.
  revert seen. induction l1 as [|cell rest IH]; intros seen; cbn.
  - apply prefix_nil.
  - case_bool_decide; [apply IH | apply prefix_cons, IH].
Qed.

Lemma bars_go_Waterfall_map t : bars (go_Waterfall t) = map bar_of_row t.
Proof.
  unfold bars, go_Waterfall; cbn.
  induction t as [|r t IH]; cbn; [done | by f_equal].
Qed.

Lemma option_values t :
  map opt_value (options (my_checklist t)) = unique (col_Source t).
Proof. cbn. rewrite map_map. apply map_id. Qed.

(** X1: whatever the dataset, the values the checklist offers are pairwise
    different, they are the labels that occur in the [Source] column (none
    missing, none invented), they stand in the order in which the column
    has them, and every option is enabled with its label equal to its
    value. *)
Theorem checklist_options_cover t :
  NoDup (map opt_value (options (my_checklist t)))
  ∧ (∀ label, label ∈ map opt_value (options (my_checklist t))
              ↔ label ∈ col_Source t)
  ∧ map opt_value (options (my_checklist t)) `sublist_of` col_Source t
  ∧ Forall (λ o, opt_label o = opt_value o ∧ opt_disabled o = false)
      (options (my_checklist t)).
Proof.
  rewrite option_values. split; [apply NoDup_unique_from|].
  split; [intros label; apply elem_of_unique|].
  split; [apply sublist_unique_from|].
  cbn. apply Forall_forall. intros o Ho.
  apply list_elem_of_In, in_map_iff in Ho as (label & <- & _). done.
Qed.

(** X2: the checklist never has more options than the dataset has rows;
    it has as many exactly when no two rows share a [Source], and exactly
    then the offered values are the [Source] column itself. *)
Theorem checklist_options_count t :
  (length (options (my_checklist t)) ≤ length t)%nat
  ∧ (length (options (my_checklist t)) = length t ↔ NoDup (col_Source t))
  ∧ (map opt_value (options (my_checklist t)) = col_Source t
     ↔ NoDup (col_Source t)).
Proof.
  assert (length (options (my_checklist t)) = length (unique (col_Source t)))
    as Hlen by (by rewrite <- option_values, length_map).
  assert (length (col_Source t) = length t) as Hcol by apply length_map.
  pose proof (sublist_unique_from ∅ (col_Source t)) as Hsub.
  fold (unique (col_Source t)) in Hsub.
  assert (unique (col_Source t) = col_Source t ↔ NoDup (col_Source t))
    as Hiff.
  { split.
    - intros <-. apply NoDup_unique_from.
    - intros Hnd. apply unique_from_NoDup; [done|].
      intros cell _. apply not_elem_of_empty. }
  rewrite Hlen, option_values. split; [|split; [|done]].
  - rewrite <- Hcol. by apply sublist_length.
  - rewrite <- Hiff, <- Hcol. split; [|by intros ->].
    by apply sublist_same_length.
Qed.

(** X9: rows appended to the dataset only append options: the options
    built from a table are an initial segment of the options built from
    that table followed by further rows. *)
Theorem checklist_options_append t (more : list (ForcingRecord Num)) :
  options (my_checklist t) `prefix_of` options (my_checklist (t ++ more)%list).
Proof.
  cbn. unfold col_Source, unique. rewrite map_app.
  destruct (unique_from_app ∅ (map Source t) (map Source more)) as [k ->].
  rewrite map_app. by eexists.
Qed.

(** X3: no option of the checklist leads to an empty chart: with the
    dataset loaded, ticking any one offered option alone returns a figure
    with at least one bar, and every bar of it stands at that option's
    value. *)
Theorem option_draws_bar w t (o : ChecklistOption) :
  df w = Some t →
  o ∈ options (my_checklist t) →
  ∃ fig,
    update_graph [opt_value o] w = (Ok fig, w)
    ∧ figure_bars fig ≠ []
    ∧ Forall (λ b, bar_position b = opt_value o) (figure_bars fig).
Proof.
  intros Hdf Ho. eexists. split; [by apply update_graph_loaded|].
  rewrite figure_bars_update_yaxes, figure_bars_go_Figure.
  rewrite bars_go_Waterfall_map.
  assert (opt_value o ∈ col_Source t) as Hin.
  { apply elem_of_unique. rewrite <- option_values.
    apply list_elem_of_In, in_map. by apply list_elem_of_In. }
  apply list_elem_of_In, in_map_iff in Hin as (r & Hr & Hrt).
  apply list_elem_of_In in Hrt.
  assert (r ∈ filter (λ r, Source r ∈ [opt_value o]) t) as Hkept.
  { apply list_elem_of_filter. split; [|done].
    rewrite Hr. by apply list_elem_of_singleton. }
  split.
  - intros Hnil. apply map_eq_nil in Hnil. rewrite Hnil in Hkept.
    by apply elem_of_nil in Hkept.
  - apply Forall_forall. intros b Hb.
    apply list_elem_of_In, in_map_iff in Hb as (r' & <- & Hr').
    apply list_elem_of_In, list_elem_of_filter in Hr' as [Hsel _].
    by apply list_elem_of_singleton in Hsel.
Qed.

End ChecklistFacts.

(** ** How the chart follows the ticked boxes *)

Section Selections.

Context {Num : Type}.
Implicit Types (t : list (ForcingRecord Num)) (r : ForcingRecord Num).
Implicit Types (S : list string) (w : Process Num).

Lemma update_graph_figure_bars w t S :
  df w = Some t →
  ∃ fig, update_graph S w = (Ok fig, w)
         ∧ figure_bars fig = map bar_of_row (filter (λ r, Source r ∈ S) t).
Proof.
  intros Hdf. eexists. split; [by apply update_graph_loaded|].
  by rewrite figure_bars_update_yaxes, figure_bars_go_Figure,
    bars_go_Waterfall_map.
Qed.

Lemma filter_sublist_mono {A} (P Q : A → Prop)
    `{!∀ a, Decision (P a), !∀ a, Decision (Q a)} (l : list A) :
  (∀ a, P a → Q a) → filter P l `sublist_of` filter Q l.
Proof.
  intros HPQ. induction l as [|a l IH]; [constructor|].
  rewrite !filter_cons. destruct (decide (P a)) as [HP|HP].
  - rewrite decide_True by auto. by apply sublist_skip.
  - destruct (decide (Q a)); [by apply sublist_cons | done].
Qed.

Lemma sublist_map {A B} (f : A → B) (l k : list A) :
  l `sublist_of` k → map f l `sublist_of` map f k.
Proof.
  induction 1; cbn; [constructor | by apply sublist_skip | by apply sublist_cons].
Qed.

Lemma filter_disjoint_app t S1 S2 :
  (∀ label, label ∈ S1 → label ∉ S2) →
  filter (λ r, Source r ∈ (S1 ++ S2)%list) t
  ≡ₚ filter (λ r, Source r ∈ S1) t ++ filter (λ r, Source r ∈ S2) t.
Proof.
  intros Hdisj. induction t as [|r t IH]; [done|].
  rewrite !filter_cons.
  destruct (decide (Source r ∈ S1)) as [H1|H1].
  - rewrite decide_True by (apply elem_of_app; by left).
    rewrite decide_False by by apply Hdisj.
    cbn. by constructor.
  - destruct (decide (Source r ∈ S2)) as [H2|H2].
    + rewrite decide_True by (apply elem_of_app; by right).
      rewrite <- Permutation_middle. by constructor.
    + rewrite decide_False; [done|].
      rewrite elem_of_app. tauto.
Qed.

Lemma col_Source_filter t S :
  col_Source (filter (λ r, Source r ∈ S) t)
  = filter (λ label, label ∈ S) (col_Source t).
Proof.
  unfold col_Source. induction t as [|r t IH]; [done|].
  cbn [map]. rewrite !filter_cons.
  destruct (decide (Source r ∈ S)); cbn [map]; by rewrite IH.
Qed.

(** X4: ticking more boxes only adds bars.  If every label of one
    selection is in another, the bars of the first chart are a subsequence
    of the bars of the second: none disappears and their order stays. *)
Theorem update_graph_monotone w t S1 S2 :
  df w = Some t →
  (∀ label, label ∈ S1 → label ∈ S2) →
  ∃ fig1 fig2,
    update_graph S1 w = (Ok fig1, w)
    ∧ update_graph S2 w = (Ok fig2, w)
    ∧ figure_bars fig1 `sublist_of` figure_bars fig2.
Proof.
  intros Hdf Hincl.
  destruct (update_graph_figure_bars w t S1 Hdf) as (fig1 & Hrun1 & Hbars1).
  destruct (update_graph_figure_bars w t S2 Hdf) as (fig2 & Hrun2 & Hbars2).
  exists fig1, fig2. split; [done|]. split; [done|].
  rewrite Hbars1, Hbars2. apply sublist_map, filter_sublist_mono.
  intros r. apply Hincl.
Qed.

(** X8: the bars of two selections without a common label add up: the
    chart of the two selections together has, up to the order, the bars
    of the one chart and the bars of the other, and no further bar. *)
Theorem update_graph_disjoint w t S1 S2 :
  df w = Some t →
  (∀ label, label ∈ S1 → label ∉ S2) →
  ∃ fig1 fig2 both,
    update_graph S1 w = (Ok fig1, w)
    ∧ update_graph S2 w = (Ok fig2, w)
    ∧ update_graph (S1 ++ S2) w = (Ok both, w)
    ∧ figure_bars both ≡ₚ figure_bars fig1 ++ figure_bars fig2
    ∧ length (figure_bars both)
      = (length (figure_bars fig1) + length (figure_bars fig2))%nat.
Proof.
  intros Hdf Hdisj.
  destruct (update_graph_figure_bars w t S1 Hdf) as (fig1 & Hrun1 & Hbars1).
  destruct (update_graph_figure_bars w t S2 Hdf) as (fig2 & Hrun2 & Hbars2).
  destruct (update_graph_figure_bars w t (S1 ++ S2) Hdf)
    as (both & Hrun & Hbars).
  exists fig1, fig2, both. do 3 (split; [done|]).
  assert (figure_bars both ≡ₚ figure_bars fig1 ++ figure_bars fig2) as Hperm.
  { rewrite Hbars, Hbars1, Hbars2, <- map_app.
    by apply Permutation_map, filter_disjoint_app. }
  split; [done|]. by rewrite Hperm, length_app.
Qed.

(** X5: one bar per ticked box.  When no two rows of the dataset share a
    [Source] and the selection ticks offered labels, each once, the chart
    has as many bars as the selection has labels; and whatever the order
    of the ticks, the bars stand in the order of the [Source] column. *)
Theorem one_bar_per_tick w t S :
  df w = Some t →
  NoDup (col_Source t) →
  NoDup S →
  (∀ label, label ∈ S → label ∈ col_Source t) →
  ∃ fig,
    update_graph S w = (Ok fig, w)
    ∧ length (figure_bars fig) = length S
    ∧ map bar_position (figure_bars fig)
      = filter (λ label, label ∈ S) (col_Source t).
Proof.
  intros Hdf Hrows HS Hoffered.
  destruct (update_graph_figure_bars w t S Hdf) as (fig & Hrun & Hbars).
  exists fig. split; [done|].
  assert (map bar_position (figure_bars fig)
          = filter (λ label, label ∈ S) (col_Source t)) as Hpos.
  { rewrite Hbars, map_map. cbn. apply col_Source_filter. }
  split; [|done].
  rewrite <- (length_map bar_position), Hpos.
  apply Permutation_length, NoDup_Permutation; [by apply NoDup_filter|done|].
  intros label. rewrite list_elem_of_filter. split; [tauto|].
  intros Hin. split; [done | by apply Hoffered].
Qed.

End Selections.

(** ** The further statements on the example table *)

Lemma option_draws_bar_witness :
  df sample_process = Some sample_df
  ∧ mkOption "Methane" "Methane" false ∈ options (my_checklist sample_df)
  ∧ ∃ fig,
      update_graph [opt_value (mkOption "Methane" "Methane" false)]
        sample_process = (Ok fig, sample_process)
      ∧ figure_bars fig ≠ []
      ∧ Forall (λ b, bar_position b
                     = opt_value (mkOption "Methane" "Methane" false))
          (figure_bars fig).
Proof.
  assert (mkOption "Methane" "Methane" false
            ∈ options (my_checklist sample_df)) as Hoffered.
  { apply list_elem_of_lookup. exists 1%nat. reflexivity. }
  split; [reflexivity|]. split; [exact Hoffered|].
  apply (option_draws_bar sample_process sample_df);
    [reflexivity | exact Hoffered].
Defined.

Lemma update_graph_monotone_witness :
  df sample_process = Some sample_df
  ∧ (∀ label, label ∈ ["Methane"] → label ∈ ["Net total"; "Methane"])
  ∧ ∃ fig1 fig2,
      update_graph ["Methane"] sample_process = (Ok fig1, sample_process)
      ∧ update_graph ["Net total"; "Methane"] sample_process
        = (Ok fig2, sample_process)
      ∧ figure_bars fig1 `sublist_of` figure_bars fig2.
Proof.
  assert (∀ label, label ∈ ["Methane"] → label ∈ ["Net total"; "Methane"])
    as Hincl.
  { intros label ->%list_elem_of_singleton. right. left. }
  split; [reflexivity|]. split; [exact Hincl|].
  apply (update_graph_monotone sample_process sample_df);
    [reflexivity | exact Hincl].
Defined.

Lemma update_graph_disjoint_witness :
  df sample_process = Some sample_df
  ∧ (∀ label, label ∈ ["Methane"] → label ∉ ["Net total"])
  ∧ ∃ fig1 fig2 both,
      update_graph ["Methane"] sample_process = (Ok fig1, sample_process)
      ∧ update_graph ["Net total"] sample_process = (Ok fig2, sample_process)
      ∧ update_graph (["Methane"] ++ ["Net total"]) sample_process
        = (Ok both, sample_process)
      ∧ figure_bars both ≡ₚ figure_bars fig1 ++ figure_bars fig2
      ∧ length (figure_bars both)
        = (length (figure_bars fig1) + length (figure_bars fig2))%nat.
Proof.
  assert (∀ label, label ∈ ["Methane"] → label ∉ ["Net total"]) as Hdisj.
  { intros label ->%list_elem_of_singleton Hin%list_elem_of_singleton.
    discriminate Hin. }
  split; [reflexivity|]. split; [exact Hdisj|].
  apply (update_graph_disjoint sample_process sample_df);
    [reflexivity | exact Hdisj].
Defined.

Lemma one_bar_per_tick_witness :
  df sample_process = Some sample_df
  ∧ NoDup (col_Source sample_df)
  ∧ NoDup ["Net total"; "Carbon Dioxide"]
  ∧ (∀ label, label ∈ ["Net total"; "Carbon Dioxide"]
              → label ∈ col_Source sample_df)
  ∧ ∃ fig,
      update_graph ["Net total"; "Carbon Dioxide"] sample_process
        = (Ok fig, sample_process)
      ∧ length (figure_bars fig) = length ["Net total"; "Carbon Dioxide"]
      ∧ map bar_position (figure_bars fig)
        = filter (λ label, label ∈ ["Net total"; "Carbon Dioxide"])
            (col_Source sample_df).
Proof.
  assert (NoDup (col_Source sample_df)) as Hrows.
  { apply (bool_decide_unpack _). vm_compute. exact I. }
  assert (NoDup ["Net total"; "Carbon Dioxide"]) as Hticks.
  { apply (bool_decide_unpack _). vm_compute. exact I. }
  assert (∀ label, label ∈ ["Net total"; "Carbon Dioxide"]
                   → label ∈ col_Source sample_df) as Hoffered.
  { intros label Hin. apply elem_of_cons in Hin as [->|Hin];
      [|apply list_elem_of_singleton in Hin as ->];
      apply (bool_decide_unpack _); vm_compute; exact I. }
  split; [reflexivity|]. split; [exact Hrows|]. split; [exact Hticks|].
  split; [exact Hoffered|].
  apply (one_bar_per_tick sample_process sample_df);
    [reflexivity | exact Hrows | exact Hticks | exact Hoffered].
Defined.

Example tick_order_ignored :
  ∃ fig,
    (update_graph ["Net total"; "Carbon Dioxide"] sample_process).1 = Ok fig
    ∧ map bar_position (figure_bars fig) = ["Carbon Dioxide"; "Net total"].
Proof. eexists. split; reflexivity. Qed.

(** Two rows with one [Source]: one option, two bars. *)
Example shared_source :
  map opt_value
    (options (my_checklist [mkRecord "Aerosols" "relative" (-0.27)%Q;
                            mkRecord "Aerosols" "relative" (-0.55)%Q]))
  = ["Aerosols"]
  ∧ filter_step [mkRecord "Aerosols" "relative" (-0.27)%Q;
                 mkRecord "Aerosols" "relative" (-0.55)%Q] ["Aerosols"]
    = Ok [mkRecord "Aerosols" "relative" (-0.27)%Q;
          mkRecord "Aerosols" "relative" (-0.55)%Q].
Proof. split; reflexivity. Qed.
